(** * The StateMachine connector of jsPlumb

    A shallow embedding of [src/ts/connector/statemachine-connector.ts]:
    the segment classifier [_segment], the control point solver
    [_findControlPoint], the constructor of [StateMachine] and its
    [_computeBezier] method, followed by the properties the specification
    states about them.

    Numbers.  The specification speaks about real coordinates.  A JavaScript
    [number] is modelled as an exact rational ([Q]); every operation of the
    connector but one ([+], [-], [*], [/ 2], the comparisons) stays inside the
    rationals.  The exception is [Math.sqrt], whose result is only ever
    compared with [<=]: it is kept as a symbolic square root (see [JS.real]).
    Rounding, infinities and NaN of IEEE doubles are outside the model. *)

From Stdlib Require Import QArith Qabs Qminmax Lqa Lia List String Bool.
From Stdlib Require Reals Qreals Lra.
Import ListNotations.

Local Open Scope Q_scope.

(** ** JavaScript values *)

Module JS.

Definition number := Q.

(** The value of an expression that may be [undefined] (an array read out
    of range, an absent option): [None] is [undefined]. *)
Definition value := option number.

(** [a[i]] *)
Definition get (a : list number) (i : nat) : value := nth_error a i.

(** Relational operators and [===].  [undefined] converts to NaN in a
    relational comparison and is not strictly equal to a number, so every
    comparison with it is false. *)
Definition lt (a b : value) : bool :=
  match a, b with
  | Some x, Some y => negb (Qle_bool y x)
  | _, _ => false
  end.

Definition le (a b : value) : bool :=
  match a, b with
  | Some x, Some y => Qle_bool x y
  | _, _ => false
  end.

Definition ge (a b : value) : bool :=
  match a, b with
  | Some x, Some y => Qle_bool y x
  | _, _ => false
  end.

Definition eq (a b : value) : bool :=
  match a, b with
  | Some x, Some y => Qeq_bool x y
  | _, _ => false
  end.

(** [v || d] for a numeric default [d]: [undefined] and [0] are falsy. *)
Definition or (v : value) (d : number) : number :=
  match v with
  | Some x => if Qeq_bool x 0 then d else x
  | None => d
  end.

(** A number that may be the result of [Math.sqrt]: [Sqrt r] stands for the
    square root of the rational [r]. *)
Inductive real : Type :=
| Rational (q : number)
| Sqrt (r : number).

Definition Math_sqrt (r : number) : real := Sqrt r.

(** [d <= l].  For a root of [r >= 0] this is [0 <= l] and [r <= l * l];
    the root of a negative number is NaN, which compares false. *)
Definition real_le (d : real) (l : number) : bool :=
  match d with
  | Rational q => Qle_bool q l
  | Sqrt r => Qle_bool 0 r && Qle_bool 0 l && Qle_bool r (l * l)
  end.

End JS.

Notation "a .[ i ]" := (JS.get a i) (at level 1, format "a .[ i ]").

(** ** [_segment] (lines 9-20) *)

Definition _segment (x1 y1 x2 y2 : Q) : Q :=
  if Qle_bool x1 x2 && Qle_bool y2 y1 then 1
  else if Qle_bool x1 x2 && Qle_bool y1 y2 then 2
  else if Qle_bool x2 x1 && Qle_bool y1 y2 (* y2 >= y1 *) then 3
  else 4.

(** ** [_findControlPoint] (lines 36-87)

    [sourceEdge] and [targetEdge] are arrays: index 2 holds the proportional
    x and index 3 the proportional y of the anchor.  When [segment] is none of
    1, 2, 3, 4 the function body ends without a [return]: the result is
    [undefined], here [None]. *)

Definition _findControlPoint (midx midy segment : Q)
    (sourceEdge targetEdge : list Q) (dx dy : Q)
    (distance : JS.real) (proximityLimit : Q) : option (Q * Q) :=
  if JS.real_le distance proximityLimit then Some (midx, midy)
  else if Qeq_bool segment 1 then
    if JS.le sourceEdge.[3] (Some 0) && JS.ge targetEdge.[3] (Some 1) then
      Some (midx + (if JS.lt sourceEdge.[2] (Some 0.5) then -1 * dx else dx), midy)
    else if JS.ge sourceEdge.[2] (Some 1) && JS.le targetEdge.[2] (Some 0) then
      Some (midx, midy + (if JS.lt sourceEdge.[3] (Some 0.5) then -1 * dy else dy))
    else
      Some (midx + (-1 * dx), midy + (-1 * dy))
  else if Qeq_bool segment 2 then
    if JS.ge sourceEdge.[3] (Some 1) && JS.le targetEdge.[3] (Some 0) then
      Some (midx + (if JS.lt sourceEdge.[2] (Some 0.5) then -1 * dx else dx), midy)
    else if JS.ge sourceEdge.[2] (Some 1) && JS.le targetEdge.[2] (Some 0) then
      Some (midx, midy + (if JS.lt sourceEdge.[3] (Some 0.5) then -1 * dy else dy))
    else
      Some (midx + dx, midy + (-1 * dy))
  else if Qeq_bool segment 3 then
    if JS.ge sourceEdge.[3] (Some 1) && JS.le targetEdge.[3] (Some 0) then
      Some (midx + (if JS.lt sourceEdge.[2] (Some 0.5) then -1 * dx else dx), midy)
    else if JS.le sourceEdge.[2] (Some 0) && JS.ge targetEdge.[2] (Some 1) then
      Some (midx, midy + (if JS.lt sourceEdge.[3] (Some 0.5) then -1 * dy else dy))
    else
      Some (midx + (-1 * dx), midy + (-1 * dy))
  else if Qeq_bool segment 4 then
    if JS.le sourceEdge.[3] (Some 0) && JS.ge targetEdge.[3] (Some 1) then
      Some (midx + (if JS.lt sourceEdge.[2] (Some 0.5) then -1 * dx else dx), midy)
    else if JS.le sourceEdge.[2] (Some 0) && JS.ge targetEdge.[2] (Some 1) then
      Some (midx, midy + (if JS.lt sourceEdge.[3] (Some 0.5) then -1 * dy else dy))
    else
      Some (midx + dx, midy + (-1 * dy))
  else None.

(** ** The [StateMachine] class (lines 91-189) *)

(** The constructor's [params]: every field is optional. *)
Module Options.
Record t : Type := mk {
  curviness : JS.value;
  margin : JS.value;
  proximityLimit : JS.value;
  orientation : option string
}.
End Options.

(** What [params.orientation && params.orientation === "clockwise"] can
    evaluate to: [undefined] when the option is absent, the empty string when
    it is the empty string (both falsy, returned by [&&] as they are), and a
    boolean otherwise. *)
Inductive clockwise_value : Type :=
| CwUndefined
| CwEmptyString
| CwBool (b : bool).

(** The fields of the connector this file reads or writes. *)
Record StateMachine : Type := mkStateMachine {
  curviness : Q;
  margin : Q;
  proximityLimit : Q;
  clockwise : clockwise_value;
  _controlPoint : option (Q * Q)
}.

(** The argument of [_addSegment (BezierSegment, ...)]. *)
Record BezierParams : Type := mkBezierParams {
  x1 : Q; y1 : Q; x2 : Q; y2 : Q;
  cp1x : Q; cp1y : Q;
  cp2x : Q; cp2y : Q
}.

(** The part of [ConnectorComputeParams] the method reads. *)
Record ConnectorComputeParams : Type := mkParams {
  sourcePos : list Q;
  targetPos : list Q
}.

(** [constructor] (lines 98-105).  The call of [super] belongs to the
    abstract connector; [_controlPoint] is not assigned before the first
    [_computeBezier]. *)
Definition constructor (params : Options.t) : StateMachine :=
  {| curviness := JS.or (Options.curviness params) 10;
     margin := JS.or (Options.margin params) 5;
     proximityLimit := JS.or (Options.proximityLimit params) 80;
     clockwise :=
       match Options.orientation params with
       | None => CwUndefined
       | Some EmptyString => CwEmptyString
       | Some s => CwBool (String.eqb s "clockwise")
       end;
     _controlPoint := None |}.

(** Lines 108-111 of [_computeBezier]: the corners [(_sx, _sy, _tx, _ty)] of
    the layout box before the margin is applied. *)
Definition boxCorners (params : ConnectorComputeParams) (w h : Q)
  : Q * Q * Q * Q :=
  let _sx := if JS.lt (sourcePos params).[0] (targetPos params).[0] then 0 else w in
  let _sy := if JS.lt (sourcePos params).[1] (targetPos params).[1] then 0 else h in
  let _tx := if JS.lt (sourcePos params).[0] (targetPos params).[0] then w else 0 in
  let _ty := if JS.lt (sourcePos params).[1] (targetPos params).[1] then h else 0 in
  (_sx, _sy, _tx, _ty).

(** Lines 113-137: "now adjust for the margin".  Eight assignments, each
    under its own [if]. *)
Definition adjustForMargin (this : StateMachine)
    (params : ConnectorComputeParams) (corners : Q * Q * Q * Q)
  : Q * Q * Q * Q :=
  let '(_sx, _sy, _tx, _ty) := corners in
  let _sx := if JS.eq (sourcePos params).[2] (Some 0) then _sx - margin this else _sx in
  let _sx := if JS.eq (sourcePos params).[2] (Some 1) then _sx + margin this else _sx in
  let _sy := if JS.eq (sourcePos params).[3] (Some 0) then _sy - margin this else _sy in
  let _sy := if JS.eq (sourcePos params).[3] (Some 1) then _sy + margin this else _sy in
  let _tx := if JS.eq (targetPos params).[2] (Some 0) then _tx - margin this else _tx in
  let _tx := if JS.eq (targetPos params).[2] (Some 1) then _tx + margin this else _tx in
  let _ty := if JS.eq (targetPos params).[3] (Some 0) then _ty - margin this else _ty in
  let _ty := if JS.eq (targetPos params).[3] (Some 1) then _ty + margin this else _ty in
  (_sx, _sy, _tx, _ty).

(** [_computeBezier] (lines 107-187).  The arguments [paintInfo], [sp] and
    [tp] are never read and are left out.

    The method writes [this._controlPoint] and calls [this._addSegment]
    once; [_addSegment] belongs to the abstract connector, so the model
    returns the updated connector together with the list of the arguments
    [_addSegment] was called with, in order.  Reading index 0 of an
    [undefined] control point throws a TypeError: [None]. *)
Definition _computeBezier (this : StateMachine)
    (params : ConnectorComputeParams) (w h : Q)
  : option (StateMachine * list BezierParams) :=
  let '(_sx, _sy, _tx, _ty) :=
    adjustForMargin this params (boxCorners params w h) in
  let _midx := (_sx + _tx) / 2 in
  let _midy := (_sy + _ty) / 2 in
  let segment := _segment _sx _sy _tx _ty in
  let distance := JS.Math_sqrt ((_tx - _sx) ^ 2 + (_ty - _sy) ^ 2) in
  match _findControlPoint _midx _midy segment
          (sourcePos params) (targetPos params)
          (curviness this) (curviness this)
          distance (proximityLimit this) with
  | None => None
  | Some cp =>
      let this' :=
        {| curviness := curviness this;
           margin := margin this;
           proximityLimit := proximityLimit this;
           clockwise := clockwise this;
           _controlPoint := Some cp |} in
      let cp1x := fst cp in
      let cp2x := fst cp in
      let cp1y := snd cp in
      let cp2y := snd cp in
      Some (this',
            [ {| x1 := _tx; y1 := _ty; x2 := _sx; y2 := _sy;
                 cp1x := cp1x; cp1y := cp1y;
                 cp2x := cp2x; cp2y := cp2y |} ])
  end.

(** The observable results of a call of [_computeBezier]: the control point
    it stores and the descriptors it emits. *)
Definition controlPointOf (r : option (StateMachine * list BezierParams))
  : option (Q * Q) :=
  match r with
  | Some (this', _) => _controlPoint this'
  | None => None
  end.


(** * Vocabulary of the properties *)

(** Equality of points up to the equality of rationals. *)
Definition pt_eq (p q : Q * Q) : Prop :=
  fst p == fst q /\ snd p == snd q.

(** The rule table of section 4.3 of the specification, written from its
    words: a row per segment with condition A (on the proportional y of the
    two anchors), condition B (on their proportional x) and the default
    offset. *)
Module Spec.

Inductive Segment : Type := TopRight | BottomRight | BottomLeft | TopLeft.

Definition code (s : Segment) : Q :=
  match s with
  | TopRight => 1
  | BottomRight => 2
  | BottomLeft => 3
  | TopLeft => 4
  end.

Definition conditionA (s : Segment) (srcY tgtY : Q) : bool :=
  match s with
  | TopRight | TopLeft => Qle_bool srcY 0 && Qle_bool 1 tgtY
  | BottomRight | BottomLeft => Qle_bool 1 srcY && Qle_bool tgtY 0
  end.

Definition conditionB (s : Segment) (srcX tgtX : Q) : bool :=
  match s with
  | TopRight | BottomRight => Qle_bool 1 srcX && Qle_bool tgtX 0
  | BottomLeft | TopLeft => Qle_bool srcX 0 && Qle_bool 1 tgtX
  end.

Definition defaultOffset (s : Segment) (mid : Q * Q) (dx dy : Q) : Q * Q :=
  match s with
  | TopRight | BottomLeft => (fst mid - dx, snd mid - dy)
  | BottomRight | TopLeft => (fst mid + dx, snd mid - dy)
  end.

(** [p < 0.5], the test that chooses the sign "-". *)
Definition belowHalf (p : Q) : bool := negb (Qle_bool 0.5 p).

(** Step 2 of the solver: branches in order, first match wins. *)
Definition ruleTable (s : Segment) (mid : Q * Q)
    (srcX srcY tgtX tgtY dx dy : Q) : Q * Q :=
  if conditionA s srcY tgtY then
    (if belowHalf srcX then fst mid - dx else fst mid + dx, snd mid)
  else if conditionB s srcX tgtX then
    (fst mid, if belowHalf srcY then snd mid - dy else snd mid + dy)
  else defaultOffset s mid dx dy.

End Spec.

(** [offsetBy c x mid]: the coordinate [x] is [mid], [mid + c] or
    [mid - c]. *)
Definition offsetBy (c x mid : Q) : Prop :=
  x - mid == 0 \/ x - mid == c \/ x - mid == - c.

(** [exactly v k]: the value read is a number, and it is [k]. *)
Definition exactly (v : JS.value) (k : Q) : Prop :=
  exists q, v = Some q /\ q == k.

(** The margin rule of section 4.1 for one coordinate [before] of one
    anchor whose proportional position on that axis is [p]: [after] is the
    coordinate once adjusted. *)
Definition marginRule (p : JS.value) (margin before after : Q) : Prop :=
  (exactly p 0 -> after = before - margin) /\
  (exactly p 1 -> after = before + margin) /\
  (~ exactly p 0 -> ~ exactly p 1 -> after = before).

(** The connector of scenario A and its anchors. *)
Definition scenarioA_connector : StateMachine :=
  constructor
    {| Options.curviness := Some 10;
       Options.margin := Some 5;
       Options.proximityLimit := Some 80;
       Options.orientation := None |}.

Definition scenarioA_params : ConnectorComputeParams :=
  {| sourcePos := [0; 0; 0; 0]; targetPos := [200; 100; 1; 1] |}.



(** [falsy v]: the option is absent or is the number 0. *)
Definition falsy (v : JS.value) : Prop :=
  v = None \/ exactly v 0.

(** The real number a [JS.real] stands for, and when it is defined. *)
Module RealSemantics.

Import Reals Qreals.

(** The real number a [JS.real] stands for. *)
Definition denote (d : JS.real) : R :=
  match d with
  | JS.Rational q => Q2R q
  | JS.Sqrt r => sqrt (Q2R r)
  end.

(** [Math.sqrt] is applied to a number that is not negative. *)
Definition defined (d : JS.real) : Prop :=
  match d with
  | JS.Rational _ => True
  | JS.Sqrt r => 0 <= r
  end.

End RealSemantics.

(** ** Vocabulary of the further properties *)

(** Neither proportional position of the anchor meets a test of the solver:
    every comparison of index 2 and of index 3 with 0 and with 1 that the
    solver makes is false. *)
Definition offFaces (edge : list Q) : Prop :=
  JS.le edge.[2] (Some 0) = false /\ JS.ge edge.[2] (Some 1) = false /\
  JS.le edge.[3] (Some 0) = false /\ JS.ge edge.[3] (Some 1) = false.

(** An anchor strictly inside its face on both axes. *)
Definition interior (edge : list Q) : Prop :=
  exists px py,
    edge.[2] = Some px /\ edge.[3] = Some py /\
    0 < px /\ px < 1 /\ 0 < py /\ py < 1.



(** The midpoint of the two endpoints of a descriptor. *)
Definition midpointOf (d : BezierParams) : Q * Q :=
  ((x1 d + x2 d) / 2, (y1 d + y2 d) / 2).

(** The offsets the rule groups of the solver add to the midpoint: [dx] or
    [- dx] on x alone, [dy] or [- dy] on y alone, or [dx] or [- dx] on x
    together with [- dy] on y. *)
Definition tableOffset (dx dy ox oy : Q) : Prop :=
  ((ox == dx \/ ox == - dx) /\ oy == 0) \/
  (ox == 0 /\ (oy == dy \/ oy == - dy)) \/
  ((ox == dx \/ ox == - dx) /\ oy == - dy).

(** * Properties *)

(** ** Reflection of the comparisons *)

Lemma Qle_bool_spec (x y : Q) : reflect (x <= y) (Qle_bool x y).
Proof.
  destruct (Qle_bool x y) eqn:E; constructor.
  - now apply Qle_bool_iff.
  - intro H. apply Qle_bool_iff in H. congruence.
Qed.

Lemma Qeq_bool_spec (x y : Q) : reflect (x == y) (Qeq_bool x y).
Proof.
  destruct (Qeq_bool x y) eqn:E; constructor.
  - now apply Qeq_bool_iff.
  - now apply Qeq_bool_neq.
Qed.

(** Replaces every rational comparison of the context and the goal by the
    order fact it decides. *)
Ltac q_cases :=
  repeat (match goal with
          | |- context [Qle_bool ?x ?y] => destruct (Qle_bool_spec x y)
          | |- context [Qeq_bool ?x ?y] => destruct (Qeq_bool_spec x y)
          end; cbn [andb negb]).

(** Evaluates the strict equalities between literals, such as the tests of a
    segment that is known. *)
Ltac eval_literal_eq :=
  repeat match goal with
  | |- context [Qeq_bool (?a # ?b) (?c # ?d)] =>
      let v := eval vm_compute in (Qeq_bool (a # b) (c # d)) in
      change (Qeq_bool (a # b) (c # d)) with v
  end; cbv iota.

(** Splits on every remaining boolean test of the goal. *)
Ltac if_cases :=
  repeat match goal with
  | |- context [if ?b then _ else _] => destruct b
  end.

(** ** The segment classifier *)

(** C2.  For all corner coordinates [_segment] returns one of 1, 2, 3, 4,
    chosen by the first rule that holds in the order of section 4.2; when
    [x1] equals [x2] the result is 1 or 2. *)
Theorem segment_total_by_precedence (x1 y1 x2 y2 : Q) :
  let s := _segment x1 y1 x2 y2 in
  let rule1 := x1 <= x2 /\ y2 <= y1 in
  let rule2 := x1 <= x2 /\ y1 <= y2 in
  let rule3 := x2 <= x1 /\ y2 >= y1 in
  (s = 1 \/ s = 2 \/ s = 3 \/ s = 4) /\
  (rule1 -> s = 1) /\
  (~ rule1 -> rule2 -> s = 2) /\
  (~ rule1 -> ~ rule2 -> rule3 -> s = 3) /\
  (~ rule1 -> ~ rule2 -> ~ rule3 -> s = 4) /\
  (x1 == x2 -> s = 1 \/ s = 2).
Proof.
  unfold _segment. cbv zeta.
  q_cases; cbn [andb]; repeat split; intros; auto;
    try (exfalso; tauto); try (exfalso; lra).
Qed.

(** The four segment values are pairwise different, so "one of" above is
    "exactly one of". *)
Lemma segment_values_distinct :
  ~ 1 == 2 /\ ~ 1 == 3 /\ ~ 1 == 4 /\ ~ 2 == 3 /\ ~ 2 == 4 /\ ~ 3 == 4.
Proof. repeat split; intro H; discriminate H. Qed.

Example segment_on_equal_x :
  _segment 3 7 3 2 = 1 /\ _segment 3 2 3 7 = 2 /\ _segment 3 2 3 2 = 1.
Proof. repeat split. Qed.

Example segment_to_the_left :
  _segment 5 0 1 4 = 3 /\ _segment 5 4 1 0 = 4.
Proof. repeat split. Qed.

(** ** The control point solver *)

(** C3.  When the distance is at most the proximity limit the solver returns
    the midpoint, whatever the segment and the anchors are. *)
Theorem proximity_fallback_midpoint
    (midx midy segment : Q) (sourceEdge targetEdge : list Q) (dx dy : Q)
    (distance : JS.real) (proximityLimit : Q) :
  JS.real_le distance proximityLimit = true ->
  _findControlPoint midx midy segment sourceEdge targetEdge dx dy
    distance proximityLimit = Some (midx, midy).
Proof.
  intros Hnear. unfold _findControlPoint. now rewrite Hnear.
Qed.

Lemma proximity_fallback_midpoint_witness :
  JS.real_le (JS.Sqrt 5200) 80 = true /\
  _findControlPoint 25 15 7 [0; 0; 0; 0] [200; 100; 1; 1] 10 10
    (JS.Sqrt 5200) 80 = Some (25, 15).
Proof.
  split.
  - reflexivity.
  - apply (proximity_fallback_midpoint 25 15 7). reflexivity.
Defined.

(** C1.  Beyond the proximity limit the solver computes the rule table of
    section 4.3, for each of the four segments and all proportional positions
    of the two anchors. *)
Theorem solver_matches_rule_table
    (s : Spec.Segment) (midx midy : Q)
    (srcAbsX srcAbsY srcX srcY tgtAbsX tgtAbsY tgtX tgtY dx dy : Q)
    (distance : JS.real) (proximityLimit : Q) :
  JS.real_le distance proximityLimit = false ->
  exists p,
    _findControlPoint midx midy (Spec.code s)
      [srcAbsX; srcAbsY; srcX; srcY] [tgtAbsX; tgtAbsY; tgtX; tgtY]
      dx dy distance proximityLimit = Some p /\
    pt_eq p (Spec.ruleTable s (midx, midy) srcX srcY tgtX tgtY dx dy).
Proof.
  intros Hfar. unfold _findControlPoint. rewrite Hfar.
  unfold Spec.ruleTable, Spec.conditionA, Spec.conditionB,
    Spec.defaultOffset, Spec.belowHalf, pt_eq.
  destruct s; cbn [Spec.code JS.get nth_error JS.le JS.ge JS.lt fst snd];
    eval_literal_eq; q_cases;
    eexists; (split; [reflexivity | cbn [fst snd]; split; lra]).
Qed.

Lemma solver_matches_rule_table_witness :
  JS.real_le (JS.Sqrt 69700) 80 = false /\
  exists p,
    _findControlPoint 100 75 2 [0; 0; 0; 0] [200; 100; 1; 1] 10 10
      (JS.Sqrt 69700) 80 = Some p /\
    pt_eq p (Spec.ruleTable Spec.BottomRight (100, 75) 0 0 1 1 10 10).
Proof.
  split.
  - reflexivity.
  - apply (solver_matches_rule_table Spec.BottomRight 100 75 0 0 0 0 200 100).
    reflexivity.
Defined.

(** C4.  For a segment in 1-4, beyond the proximity limit and with
    [dx = dy = curv] (the curviness), each coordinate of the control point
    is the midpoint's, moved by 0, by [curv] or by [- curv]. *)
Theorem control_point_offset_bounded
    (midx midy segment : Q) (sourceEdge targetEdge : list Q) (curv : Q)
    (distance : JS.real) (proximityLimit : Q) :
  segment == 1 \/ segment == 2 \/ segment == 3 \/ segment == 4 ->
  JS.real_le distance proximityLimit = false ->
  exists x y,
    _findControlPoint midx midy segment sourceEdge targetEdge
      curv curv distance proximityLimit = Some (x, y) /\
    offsetBy curv x midx /\ offsetBy curv y midy.
Proof.
  intros Hseg Hfar. unfold _findControlPoint, offsetBy. rewrite Hfar.
  q_cases; try (exfalso; lra); if_cases;
    do 2 eexists; (split; [reflexivity | split; lra]).
Qed.

Lemma control_point_offset_bounded_witness :
  (2 == 1 \/ 2 == 2 \/ 2 == 3 \/ 2 == 4) /\
  JS.real_le (JS.Sqrt 69700) 80 = false /\
  exists x y,
    _findControlPoint 100 75 2 [0; 0; 0; 0] [200; 100; 1; 1] 10 10
      (JS.Sqrt 69700) 80 = Some (x, y) /\
    offsetBy 10 x 100 /\ offsetBy 10 y 75.
Proof.
  split; [right; left; reflexivity |].
  split; [reflexivity |].
  apply (control_point_offset_bounded 100 75 2).
  - right; left; reflexivity.
  - reflexivity.
Defined.

(** ** The compute step *)

Lemma _segment_range (x1 y1 x2 y2 : Q) :
  let s := _segment x1 y1 x2 y2 in
  s == 1 \/ s == 2 \/ s == 3 \/ s == 4.
Proof.
  unfold _segment. cbv zeta.
  destruct (Qle_bool x1 x2 && Qle_bool y2 y1); [left; reflexivity |].
  destruct (Qle_bool x1 x2 && Qle_bool y1 y2); [right; left; reflexivity |].
  destruct (Qle_bool x2 x1 && Qle_bool y1 y2).
  - right; right; left; reflexivity.
  - right; right; right; reflexivity.
Qed.

Lemma _findControlPoint_defined
    (midx midy segment : Q) (sourceEdge targetEdge : list Q) (dx dy : Q)
    (distance : JS.real) (proximityLimit : Q) :
  segment == 1 \/ segment == 2 \/ segment == 3 \/ segment == 4 ->
  exists p,
    _findControlPoint midx midy segment sourceEdge targetEdge dx dy
      distance proximityLimit = Some p.
Proof.
  intros Hseg. unfold _findControlPoint.
  destruct (JS.real_le distance proximityLimit); [now eexists |].
  q_cases; try (exfalso; tauto); if_cases; now eexists.
Qed.

Lemma eq_exactly (v : JS.value) (k : Q) :
  JS.eq v (Some k) = true <-> exactly v k.
Proof.
  unfold exactly. destruct v as [q |]; cbn [JS.eq].
  - rewrite Qeq_bool_iff. split.
    + intros H. now exists q.
    + intros [q' [E H]]. injection E as E'. now subst q'.
  - split; [discriminate | intros [q' [E _]]; discriminate E].
Qed.

Lemma marginRule_two_ifs (p : JS.value) (m v : Q) :
  marginRule p m v
    (let v0 := if JS.eq p (Some 0) then v - m else v in
     if JS.eq p (Some 1) then v0 + m else v0).
Proof.
  unfold marginRule. cbv zeta.
  destruct (JS.eq p (Some 0)) eqn:E0, (JS.eq p (Some 1)) eqn:E1;
    try (apply eq_exactly in E0); try (apply eq_exactly in E1).
  - exfalso. destruct E0 as [q [Hq H0]], E1 as [q' [Hq' H1]].
    rewrite Hq in Hq'. injection Hq' as E'. subst q'. lra.
  - repeat split; intros; try reflexivity; try tauto.
    exfalso. apply eq_exactly in H. congruence.
  - repeat split; intros; try reflexivity; try tauto.
    exfalso. apply eq_exactly in H. congruence.
  - repeat split; intros; try reflexivity.
    + apply eq_exactly in H. congruence.
    + apply eq_exactly in H. congruence.
Qed.

Lemma _computeBezier_defined (this : StateMachine)
    (params : ConnectorComputeParams) (w h : Q) :
  exists this' cp d,
    _computeBezier this params w h = Some (this', [d]) /\
    _controlPoint this' = Some cp.
Proof.
  unfold _computeBezier.
  destruct (adjustForMargin this params (boxCorners params w h))
    as [[[sx sy] tx] ty].
  match goal with
  | |- context [_findControlPoint ?mx ?my ?s ?se ?te ?dx ?dy ?d ?l] =>
      destruct (_findControlPoint_defined mx my s se te dx dy d l
                  (_segment_range sx sy tx ty)) as [cp ->]
  end.
  do 3 eexists. split; reflexivity.
Qed.

(** C8.  The solver has no failure condition: for every segment value and
    all other inputs it returns a control point, since each of the four
    segments ends in a default branch.  [_segment] returns nothing but the
    four segment values, so [_computeBezier] always obtains a control
    point. *)
Theorem solver_total_on_every_segment
    (s : Spec.Segment) (midx midy : Q) (sourceEdge targetEdge : list Q)
    (dx dy : Q) (distance : JS.real) (proximityLimit : Q) :
  (exists p,
     _findControlPoint midx midy (Spec.code s) sourceEdge targetEdge dx dy
       distance proximityLimit = Some p) /\
  (forall x1 y1 x2 y2 : Q, exists s', _segment x1 y1 x2 y2 = Spec.code s') /\
  (forall (this : StateMachine) (params : ConnectorComputeParams) (w h : Q),
     exists cp, controlPointOf (_computeBezier this params w h) = Some cp).
Proof.
  split; [| split].
  - apply _findControlPoint_defined.
    destruct s; cbn [Spec.code];
      [ left | right; left | right; right; left | right; right; right ];
      reflexivity.
  - intros x1 y1 x2 y2. unfold _segment.
    destruct (Qle_bool x1 x2 && Qle_bool y2 y1);
      [exists Spec.TopRight; reflexivity |].
    destruct (Qle_bool x1 x2 && Qle_bool y1 y2);
      [exists Spec.BottomRight; reflexivity |].
    destruct (Qle_bool x2 x1 && Qle_bool y1 y2);
      [exists Spec.BottomLeft; reflexivity | exists Spec.TopLeft; reflexivity].
  - intros this params w h.
    destruct (_computeBezier_defined this params w h)
      as [this' [cp [d [E Hcp]]]].
    exists cp. rewrite E. exact Hcp.
Qed.

(** C5.  Each of the four corner coordinates follows the margin rule of its
    own anchor and axis: [margin] is subtracted when the proportional
    position is exactly 0, added when it is exactly 1, and the coordinate is
    unchanged for every other value (between 0 and 1, outside [0,1], or
    absent); the compute step returns for every input. *)
Theorem margin_adjustment_per_axis (this : StateMachine)
    (params : ConnectorComputeParams) (sx sy tx ty w h : Q) :
  (let '(sx', sy', tx', ty') :=
     adjustForMargin this params (sx, sy, tx, ty) in
   marginRule (sourcePos params).[2] (margin this) sx sx' /\
   marginRule (sourcePos params).[3] (margin this) sy sy' /\
   marginRule (targetPos params).[2] (margin this) tx tx' /\
   marginRule (targetPos params).[3] (margin this) ty ty') /\
  (exists r, _computeBezier this params w h = Some r).
Proof.
  split.
  - unfold adjustForMargin. repeat split; apply marginRule_two_ifs.
  - destruct (_computeBezier_defined this params w h) as [this' [cp [d [E _]]]].
    eexists. exact E.
Qed.

(** C6.  Every call of [_computeBezier] emits exactly one descriptor: its
    first endpoint is the margin-adjusted target corner, its second endpoint
    the margin-adjusted source corner, and both control handles are the one
    control point the solver returned, which the connector also stores. *)
Theorem compute_emits_one_quadratic_descriptor (this : StateMachine)
    (params : ConnectorComputeParams) (w h : Q) :
  let '(sx, sy, tx, ty) :=
    adjustForMargin this params (boxCorners params w h) in
  exists this' cp,
    _findControlPoint ((sx + tx) / 2) ((sy + ty) / 2) (_segment sx sy tx ty)
      (sourcePos params) (targetPos params)
      (curviness this) (curviness this)
      (JS.Math_sqrt ((tx - sx) ^ 2 + (ty - sy) ^ 2))
      (proximityLimit this) = Some cp /\
    _computeBezier this params w h =
      Some (this',
            [ {| x1 := tx; y1 := ty; x2 := sx; y2 := sy;
                 cp1x := fst cp; cp1y := snd cp;
                 cp2x := fst cp; cp2y := snd cp |} ]) /\
    _controlPoint this' = Some cp.
Proof.
  unfold _computeBezier.
  destruct (adjustForMargin this params (boxCorners params w h))
    as [[[sx sy] tx] ty].
  match goal with
  | |- context [_findControlPoint ?mx ?my ?s ?se ?te ?dx ?dy ?d ?l] =>
      destruct (_findControlPoint_defined mx my s se te dx dy d l
                  (_segment_range sx sy tx ty)) as [cp Hcp]
  end.
  rewrite Hcp. do 2 eexists. repeat split; reflexivity.
Qed.

(** C7.  Scenario A: with a box of 50 by 30 the adjusted corners are
    (-5, -5) and (55, 35), the segment is 2, the squared distance is 5200
    and its root is at most 80, the control point is (25, 15), and the one
    descriptor emitted runs from (55, 35) to (-5, -5) with both handles at
    the control point. *)
Theorem scenario_A_proximity_fallback :
  adjustForMargin scenarioA_connector scenarioA_params
    (boxCorners scenarioA_params 50 30) = (-5, -5, 55, 35) /\
  _segment (-5) (-5) 55 35 = 2 /\
  (55 - -5) ^ 2 + (35 - -5) ^ 2 == 5200 /\
  JS.real_le (JS.Math_sqrt ((55 - -5) ^ 2 + (35 - -5) ^ 2)) 80 = true /\
  exists this' cp,
    _computeBezier scenarioA_connector scenarioA_params 50 30 =
      Some (this',
            [ {| x1 := 55; y1 := 35; x2 := -5; y2 := -5;
                 cp1x := fst cp; cp1y := snd cp;
                 cp2x := fst cp; cp2y := snd cp |} ]) /\
    _controlPoint this' = Some cp /\
    pt_eq cp (25, 15).
Proof.
  repeat split; try reflexivity.
  do 2 eexists. repeat split; vm_compute; reflexivity.
Qed.

(** Scenario B of the specification: the same anchors with a box of 200 by
    150 are beyond the proximity limit and take the default branch of
    segment 2. *)
Example scenario_B_default_branch :
  adjustForMargin scenarioA_connector scenarioA_params
    (boxCorners scenarioA_params 200 150) = (-5, -5, 205, 155) /\
  exists cp,
    controlPointOf (_computeBezier scenarioA_connector scenarioA_params 200 150)
      = Some cp /\
    pt_eq cp (110, 65).
Proof.
  split; [reflexivity |].
  eexists. split; [vm_compute; reflexivity | split; reflexivity].
Qed.

(** ** Configuration *)




(** C10.  A falsy curviness, margin or proximity limit is replaced by 10, 5
    and 80; any other number is kept.  So the curviness of a connector is
    never 0. *)
Theorem falsy_options_replaced_by_defaults (params : Options.t) :
  (falsy (Options.curviness params) -> curviness (constructor params) = 10) /\
  (falsy (Options.margin params) -> margin (constructor params) = 5) /\
  (falsy (Options.proximityLimit params) ->
   proximityLimit (constructor params) = 80) /\
  (forall q, Options.curviness params = Some q -> ~ q == 0 ->
             curviness (constructor params) = q) /\
  (forall q, Options.margin params = Some q -> ~ q == 0 ->
             margin (constructor params) = q) /\
  (forall q, Options.proximityLimit params = Some q -> ~ q == 0 ->
             proximityLimit (constructor params) = q) /\
  ~ curviness (constructor params) == 0.
Proof.
  assert (Hfalsy : forall v d, falsy v -> JS.or v d = d).
  { intros v d [-> | [q [-> Hq]]]; cbn [JS.or]; [reflexivity |].
    apply Qeq_bool_iff in Hq. now rewrite Hq. }
  assert (Hkeep : forall v d q, v = Some q -> ~ q == 0 -> JS.or v d = q).
  { intros v d q -> Hq. cbn [JS.or].
    destruct (Qeq_bool_spec q 0); [contradiction | reflexivity]. }
  cbn [constructor curviness margin proximityLimit].
  repeat split; intros; auto.
  destruct (Options.curviness params) as [q |]; cbn [JS.or].
  - destruct (Qeq_bool_spec q 0); [discriminate | assumption].
  - discriminate.
Qed.

(** ** The symbolic square root is the real one *)

Module RealSemanticsFacts.

Import Reals Qreals Lra RealSemantics.

Lemma real_le_denote (d : JS.real) (l : Q) :
  defined d ->
  JS.real_le d l = true <-> (denote d <= Q2R l)%R.
Proof.
  destruct d as [q | r]; cbn [defined denote JS.real_le]; intros Hdef.
  - rewrite Qle_bool_iff. split; [apply Qle_Rle | apply Rle_Qle].
  - rewrite !andb_true_iff, !Qle_bool_iff. split.
    + intros [[_ Hl] Hr].
      apply Qle_Rle in Hl, Hr. rewrite RMicromega.Q2R_0 in Hl.
      rewrite Q2R_mult in Hr.
      rewrite <- (sqrt_square (Q2R l) Hl).
      now apply sqrt_le_1_alt.
    + intros Hle.
      pose proof (sqrt_pos (Q2R r)) as Hpos.
      assert (Hl : (0 <= Q2R l)%R) by lra.
      assert (Hr : (0 <= Q2R r)%R).
      { rewrite <- RMicromega.Q2R_0. now apply Qle_Rle. }
      repeat split; try assumption.
      * apply Rle_Qle. now rewrite RMicromega.Q2R_0.
      * apply Rle_Qle. rewrite Q2R_mult.
        rewrite <- (sqrt_sqrt (Q2R r) Hr).
        now apply Rmult_le_compat.
Qed.

(** The distance [_computeBezier] forms is the root of a sum of two
    squares, so it is always defined. *)
Lemma distance_defined (sx sy tx ty : Q) :
  defined (JS.Math_sqrt ((tx - sx) ^ 2 + (ty - sy) ^ 2)).
Proof.
  cbn [defined JS.Math_sqrt].
  assert (H : forall a : Q, 0 <= a ^ 2).
  { intros a. change (a ^ 2) with (a * a). Lqa.nra. }
  pose proof (H (tx - sx)). pose proof (H (ty - sy)). Lqa.lra.
Qed.

(** The distance of scenario A as a real number. *)
Lemma scenario_A_distance :
  (sqrt (Q2R 5200) <= Q2R 80)%R.
Proof.
  apply (real_le_denote (JS.Sqrt 5200) 80).
  - cbn [defined]. discriminate.
  - reflexivity.
Qed.

End RealSemanticsFacts.

(** * Further properties of the code *)

(** ** [_segment] *)

(** X1.  Each result of [_segment] has one region: 1 is "not left, not
    below", 2 is "not left, strictly below", 3 is "strictly left, not
    above", 4 is "strictly left, strictly above" (y grows downwards). *)
Theorem segment_regions (x1 y1 x2 y2 : Q) :
  let s := _segment x1 y1 x2 y2 in
  (s = 1 <-> x1 <= x2 /\ y2 <= y1) /\
  (s = 2 <-> x1 <= x2 /\ y1 < y2) /\
  (s = 3 <-> x2 < x1 /\ y1 <= y2) /\
  (s = 4 <-> x2 < x1 /\ y2 < y1).
Proof.
  unfold _segment. cbv zeta.
  q_cases; repeat split; intros; try reflexivity; try discriminate;
    try lra; try (exfalso; lra); intuition lra.
Qed.

(** X2.  When the corners differ on both axes, exchanging them gives the
    opposite segment: 1 and 3 are exchanged, and so are 2 and 4. *)
Theorem segment_of_exchanged_corners (x1 y1 x2 y2 : Q) :
  ~ x1 == x2 -> ~ y1 == y2 ->
  let s := _segment x1 y1 x2 y2 in
  let s' := _segment x2 y2 x1 y1 in
  (s = 1 -> s' = 3) /\ (s = 2 -> s' = 4) /\
  (s = 3 -> s' = 1) /\ (s = 4 -> s' = 2).
Proof.
  intros Hx Hy. unfold _segment. cbv zeta.
  q_cases; repeat split; intros; try reflexivity; try discriminate;
    exfalso; lra.
Qed.

Lemma segment_of_exchanged_corners_witness :
  ~ 0 == 4 /\ ~ 9 == 2 /\
  _segment 0 9 4 2 = 1 /\ _segment 4 2 0 9 = 3.
Proof.
  split; [discriminate |]. split; [discriminate |].
  split; [reflexivity |].
  apply (segment_of_exchanged_corners 0 9 4 2);
    [discriminate | discriminate | reflexivity].
Defined.

(** On a tie the exchange does not give the opposite segment. *)
Example segment_of_exchanged_corners_tie :
  _segment 3 7 3 2 = 1 /\ _segment 3 2 3 7 = 2.
Proof. split; reflexivity. Qed.

(** ** The corners of the box *)

(** X3.  The two corners are diagonally opposite corners of the box: on each
    axis one of them is at 0 and the other at the full extent.  The source
    corner is at 0 only when both absolute positions are present and the
    source's is strictly smaller; on a tie, and when a position is absent,
    the source corner is at the full extent. *)
Theorem box_corners_are_opposite (params : ConnectorComputeParams) (w h : Q) :
  let '(sx, sy, tx, ty) := boxCorners params w h in
  (sx + tx == w /\ sy + ty == h) /\
  ((sx = 0 /\ tx = w) <->
   (w = 0 \/ exists a b, (sourcePos params).[0] = Some a /\
                         (targetPos params).[0] = Some b /\ a < b)) /\
  ((sy = 0 /\ ty = h) <->
   (h = 0 \/ exists a b, (sourcePos params).[1] = Some a /\
                         (targetPos params).[1] = Some b /\ a < b)) /\
  (sx = 0 /\ tx = w \/ sx = w /\ tx = 0) /\
  (sy = 0 /\ ty = h \/ sy = h /\ ty = 0).
Proof.
  assert (Hlt : forall u v : JS.value,
             JS.lt u v = true <->
             exists a b, u = Some a /\ v = Some b /\ a < b).
  { intros [a |] [b |]; cbn [JS.lt]; split;
      try discriminate;
      try (intros [a' [b' [Ea [Eb _]]]]; discriminate).
    - intros H. exists a, b. repeat split.
      destruct (Qle_bool_spec b a); [discriminate | lra].
    - intros [a' [b' [Ea [Eb Hab]]]].
      injection Ea as Ea. injection Eb as Eb. subst a' b'.
      destruct (Qle_bool_spec b a); [exfalso; lra | reflexivity]. }
  unfold boxCorners.
  destruct (JS.lt (sourcePos params).[0] (targetPos params).[0]) eqn:Ex;
    destruct (JS.lt (sourcePos params).[1] (targetPos params).[1]) eqn:Ey;
    (split; [split; lra |]);
    (split; [| split; [| split; [tauto | tauto]]]).
  all: try (apply Hlt in Ex); try (apply Hlt in Ey).
  all: try (split; [intros _; right; assumption | intros _; split; reflexivity]).
  all: split;
    [ intros [E1 E2]; left; congruence
    | intros [E | E];
      [ subst; split; reflexivity
      | exfalso; apply Hlt in E; congruence ] ].
Qed.

Lemma two_ifs_within (p : JS.value) (m v : Q) :
  0 <= m ->
  let v0 := if JS.eq p (Some 0) then v - m else v in
  let v' := if JS.eq p (Some 1) then v0 + m else v0 in
  v - m <= v' /\ v' <= v + m.
Proof.
  intros Hm. cbv zeta.
  destruct (JS.eq p (Some 0)), (JS.eq p (Some 1)); split; lra.
Qed.

Lemma adjustForMargin_within (this : StateMachine)
    (params : ConnectorComputeParams) (sx sy tx ty : Q) :
  0 <= margin this ->
  let '(sx', sy', tx', ty') :=
    adjustForMargin this params (sx, sy, tx, ty) in
  (sx - margin this <= sx' /\ sx' <= sx + margin this) /\
  (sy - margin this <= sy' /\ sy' <= sy + margin this) /\
  (tx - margin this <= tx' /\ tx' <= tx + margin this) /\
  (ty - margin this <= ty' /\ ty' <= ty + margin this).
Proof.
  intros Hm. unfold adjustForMargin.
  repeat split; apply two_ifs_within; assumption.
Qed.

(** X4.  With a margin that is not negative and a box wider and higher than
    twice the margin, the segment [_computeBezier] passes to the solver is
    the quadrant of the target relative to the source, decided by the
    absolute positions alone: 2 when the source is strictly left of and
    strictly above the target, 1 when left and not above, 3 when not left
    and above, 4 otherwise. *)
Theorem segment_follows_absolute_positions (this : StateMachine)
    (params : ConnectorComputeParams) (w h : Q) :
  0 <= margin this -> 2 * margin this < w -> 2 * margin this < h ->
  let left := JS.lt (sourcePos params).[0] (targetPos params).[0] in
  let above := JS.lt (sourcePos params).[1] (targetPos params).[1] in
  let '(sx, sy, tx, ty) :=
    adjustForMargin this params (boxCorners params w h) in
  _segment sx sy tx ty =
    match left, above with
    | true, true => 2
    | true, false => 1
    | false, true => 3
    | false, false => 4
    end.
Proof.
  intros Hm Hw Hh. cbv zeta. unfold boxCorners.
  destruct (JS.lt (sourcePos params).[0] (targetPos params).[0]);
    destruct (JS.lt (sourcePos params).[1] (targetPos params).[1]).
  all: match goal with
       | |- context [adjustForMargin ?t ?p (?a, ?b, ?c, ?d)] =>
           pose proof (adjustForMargin_within t p a b c d Hm) as Hin;
           destruct (adjustForMargin t p (a, b, c, d))
             as [[[sx sy] tx] ty]
       end.
  all: unfold _segment; q_cases; try reflexivity; exfalso; lra.
Qed.

Lemma segment_follows_absolute_positions_witness :
  0 <= margin scenarioA_connector /\
  2 * margin scenarioA_connector < 200 /\
  2 * margin scenarioA_connector < 150 /\
  let '(sx, sy, tx, ty) :=
    adjustForMargin scenarioA_connector scenarioA_params
      (boxCorners scenarioA_params 200 150) in
  _segment sx sy tx ty = 2.
Proof.
  split; [discriminate |]. split; [reflexivity |]. split; [reflexivity |].
  apply (segment_follows_absolute_positions
           scenarioA_connector scenarioA_params 200 150);
    [discriminate | reflexivity | reflexivity].
Defined.

(** ** Beyond the proximity limit *)

Lemma _findControlPoint_far_offset
    (midx midy segment : Q) (sourceEdge targetEdge : list Q) (dx dy : Q)
    (distance : JS.real) (proximityLimit : Q) (p : Q * Q) :
  JS.real_le distance proximityLimit = false ->
  _findControlPoint midx midy segment sourceEdge targetEdge dx dy
    distance proximityLimit = Some p ->
  exists ox oy,
    pt_eq p (midx + ox, midy + oy) /\ tableOffset dx dy ox oy.
Proof.
  intros Hfar. unfold _findControlPoint. rewrite Hfar.
  if_cases; intros E; try discriminate E; injection E as E; subst p;
    match goal with
    | |- exists ox oy, pt_eq (?a, ?b) _ /\ _ =>
        exists (a - midx), (b - midy)
    end;
    unfold pt_eq, tableOffset; cbn [fst snd]; repeat split; lra.
Qed.

Lemma half_sum_comm (a b : Q) : (a + b) / 2 == (b + a) / 2.
Proof. field. Qed.

Lemma real_le_sqrt_negative (r l : Q) :
  l < 0 -> JS.real_le (JS.Math_sqrt r) l = false.
Proof.
  intros Hl. cbn [JS.real_le JS.Math_sqrt].
  destruct (Qle_bool_spec 0 l); [exfalso; lra |].
  now rewrite andb_false_r.
Qed.

(** Opens [_computeBezier]: names the adjusted corners and the control
    point the solver returns for them. *)
Ltac open_computeBezier sx sy tx ty cp Hcp :=
  unfold _computeBezier;
  match goal with
  | |- context [adjustForMargin ?t ?p ?c] =>
      destruct (adjustForMargin t p c) as [[[sx sy] tx] ty]
  end;
  match goal with
  | |- context [_findControlPoint ?mx ?my ?s ?se ?te ?dx ?dy ?d ?l] =>
      destruct (_findControlPoint_defined mx my s se te dx dy d l
                  (_segment_range sx sy tx ty)) as [cp Hcp];
      rewrite Hcp
  end.



(** X6.  A negative proximity limit is kept by the constructor, and then
    the test of the fallback is false for every pair of anchors and every
    box: the handle of the emitted descriptor is always the midpoint of its
    endpoints plus an offset of the rule groups. *)
Theorem negative_proximity_limit_skips_fallback (options : Options.t)
    (q : Q) (params : ConnectorComputeParams) (w h : Q) :
  Options.proximityLimit options = Some q -> q < 0 ->
  proximityLimit (constructor options) = q /\
  (forall r, JS.real_le (JS.Math_sqrt r)
               (proximityLimit (constructor options)) = false) /\
  exists this' d ox oy,
    _computeBezier (constructor options) params w h = Some (this', [d]) /\
    pt_eq (cp1x d, cp1y d)
      (fst (midpointOf d) + ox, snd (midpointOf d) + oy) /\
    tableOffset (curviness (constructor options))
      (curviness (constructor options)) ox oy.
Proof.
  intros Hq Hneg.
  assert (Hlimit : proximityLimit (constructor options) = q).
  { cbn [constructor proximityLimit]. rewrite Hq. cbn [JS.or].
    destruct (Qeq_bool_spec q 0); [exfalso; lra | reflexivity]. }
  split; [exact Hlimit |].
  split; [intros r; rewrite Hlimit; now apply real_le_sqrt_negative |].
  open_computeBezier sx sy tx ty cp Hcp.
  apply _findControlPoint_far_offset in Hcp;
    [| rewrite Hlimit; now apply real_le_sqrt_negative].
  destruct Hcp as [ox [oy [[Hx Hy] Hoff]]]. cbn [fst snd] in Hx, Hy.
  do 2 eexists. exists ox, oy. split; [reflexivity |].
  unfold midpointOf, pt_eq. cbn [x1 y1 x2 y2 cp1x cp1y fst snd].
  rewrite (half_sum_comm tx sx), (half_sum_comm ty sy).
  split; [split; assumption | exact Hoff].
Qed.

Lemma negative_proximity_limit_skips_fallback_witness :
  -1 < 0 /\
  proximityLimit (constructor (Options.mk None None (Some (-1)) None))
    = -1 /\
  exists this' d ox oy,
    _computeBezier
      (constructor (Options.mk None None (Some (-1)) None))
      scenarioA_params 50 30 = Some (this', [d]) /\
    pt_eq (cp1x d, cp1y d)
      (fst (midpointOf d) + ox, snd (midpointOf d) + oy) /\
    tableOffset 10 10 ox oy.
Proof.
  split; [reflexivity |].
  destruct (negative_proximity_limit_skips_fallback
              (Options.mk None None (Some (-1)) None) (-1)
              scenarioA_params 50 30) as [Hkeep [_ Hemit]];
    [reflexivity | reflexivity |].
  split; [exact Hkeep | exact Hemit].
Defined.

(** ** The default branch *)

Lemma _findControlPoint_default
    (midx midy segment : Q) (sourceEdge targetEdge : list Q) (dx dy : Q)
    (distance : JS.real) (proximityLimit : Q) :
  offFaces sourceEdge \/ offFaces targetEdge ->
  segment == 1 \/ segment == 2 \/ segment == 3 \/ segment == 4 ->
  JS.real_le distance proximityLimit = false ->
  exists p,
    _findControlPoint midx midy segment sourceEdge targetEdge dx dy
      distance proximityLimit = Some p /\
    (segment == 1 \/ segment == 3 -> pt_eq p (midx - dx, midy - dy)) /\
    (segment == 2 \/ segment == 4 -> pt_eq p (midx + dx, midy - dy)).
Proof.
  intros Hoff Hseg Hfar. unfold _findControlPoint. rewrite Hfar.
  assert (Hno :
    JS.le sourceEdge.[3] (Some 0) && JS.ge targetEdge.[3] (Some 1) = false /\
    JS.ge sourceEdge.[3] (Some 1) && JS.le targetEdge.[3] (Some 0) = false /\
    JS.ge sourceEdge.[2] (Some 1) && JS.le targetEdge.[2] (Some 0) = false /\
    JS.le sourceEdge.[2] (Some 0) && JS.ge targetEdge.[2] (Some 1) = false).
  { destruct Hoff as [[H1 [H2 [H3 H4]]] | [H1 [H2 [H3 H4]]]];
      rewrite H1, H2, H3, H4; rewrite ?andb_false_r; cbn [andb];
      repeat split; reflexivity. }
  destruct Hno as [A14 [A23 [B12 B34]]].
  rewrite A14, A23, B12, B34.
  unfold pt_eq.
  q_cases; try (exfalso; lra);
    eexists; (split; [reflexivity |]); cbn [fst snd];
    split; intros; try (exfalso; lra); split; lra.
Qed.

Lemma interior_offFaces (edge : list Q) : interior edge -> offFaces edge.
Proof.
  intros [px [py [E2 [E3 [H1 [H2 [H3 H4]]]]]]].
  unfold offFaces. rewrite E2, E3. cbn [JS.le JS.ge].
  q_cases; try (exfalso; lra). repeat split; reflexivity.
Qed.

Lemma short_offFaces (edge : list Q) :
  (List.length edge <= 2)%nat -> offFaces edge.
Proof.
  intros Hlen. unfold offFaces.
  assert (E2 : edge.[2] = None)
    by (apply nth_error_None; unfold JS.number; lia).
  assert (E3 : edge.[3] = None)
    by (apply nth_error_None; unfold JS.number; lia).
  rewrite E2, E3. repeat split; reflexivity.
Qed.

(** X7.  When one of the two anchors lies strictly inside its face on both
    axes (for instance at 0.5, 0.5), the solver takes, beyond the proximity
    limit, the default branch of the segment whatever the other anchor is:
    the control point is the midpoint moved by [- dy] vertically and by
    [- dx] (segments 1 and 3) or [+ dx] (segments 2 and 4) horizontally. *)
Theorem interior_anchor_takes_default_branch
    (midx midy segment : Q) (sourceEdge targetEdge : list Q) (dx dy : Q)
    (distance : JS.real) (proximityLimit : Q) :
  interior sourceEdge \/ interior targetEdge ->
  segment == 1 \/ segment == 2 \/ segment == 3 \/ segment == 4 ->
  JS.real_le distance proximityLimit = false ->
  exists p,
    _findControlPoint midx midy segment sourceEdge targetEdge dx dy
      distance proximityLimit = Some p /\
    (segment == 1 \/ segment == 3 -> pt_eq p (midx - dx, midy - dy)) /\
    (segment == 2 \/ segment == 4 -> pt_eq p (midx + dx, midy - dy)).
Proof.
  intros Hin. apply _findControlPoint_default.
  destruct Hin as [H | H]; [left | right]; now apply interior_offFaces.
Qed.

Lemma interior_anchor_takes_default_branch_witness :
  interior [0; 0; 0.5; 0.5] /\
  JS.real_le (JS.Sqrt 69700) 80 = false /\
  exists p,
    _findControlPoint 100 75 3 [0; 0; 0.5; 0.5] [200; 100; 1; 0] 10 10
      (JS.Sqrt 69700) 80 = Some p /\
    (3 == 1 \/ 3 == 3 -> pt_eq p (100 - 10, 75 - 10)) /\
    (3 == 2 \/ 3 == 4 -> pt_eq p (100 + 10, 75 - 10)).
Proof.
  assert (Hin : interior [0; 0; 0.5; 0.5]).
  { exists 0.5, 0.5. repeat split; reflexivity. }
  split; [exact Hin |]. split; [reflexivity |].
  apply (interior_anchor_takes_default_branch 100 75 3).
  - left. exact Hin.
  - right; right; left; reflexivity.
  - reflexivity.
Defined.

(** X8.  An anchor array without proportional positions (at most two
    elements) makes every test on them false: beyond the proximity limit
    the solver takes the default branch of the segment and still returns a
    point. *)
Theorem absent_proportions_take_default_branch
    (midx midy segment : Q) (sourceEdge targetEdge : list Q) (dx dy : Q)
    (distance : JS.real) (proximityLimit : Q) :
  (List.length sourceEdge <= 2)%nat \/ (List.length targetEdge <= 2)%nat ->
  segment == 1 \/ segment == 2 \/ segment == 3 \/ segment == 4 ->
  JS.real_le distance proximityLimit = false ->
  exists p,
    _findControlPoint midx midy segment sourceEdge targetEdge dx dy
      distance proximityLimit = Some p /\
    (segment == 1 \/ segment == 3 -> pt_eq p (midx - dx, midy - dy)) /\
    (segment == 2 \/ segment == 4 -> pt_eq p (midx + dx, midy - dy)).
Proof.
  intros Hlen. apply _findControlPoint_default.
  destruct Hlen as [H | H]; [left | right]; now apply short_offFaces.
Qed.

Lemma absent_proportions_take_default_branch_witness :
  (List.length [0; 0] <= 2)%nat /\
  JS.real_le (JS.Sqrt 69700) 80 = false /\
  exists p,
    _findControlPoint 100 75 2 [0; 0] [200; 100; 0; 0] 10 10
      (JS.Sqrt 69700) 80 = Some p /\
    (2 == 1 \/ 2 == 3 -> pt_eq p (100 - 10, 75 - 10)) /\
    (2 == 2 \/ 2 == 4 -> pt_eq p (100 + 10, 75 - 10)).
Proof.
  split; [cbn; lia |]. split; [reflexivity |].
  apply (absent_proportions_take_default_branch 100 75 2).
  - left. cbn; lia.
  - right; left; reflexivity.
  - reflexivity.
Defined.

(** ** Repainting and moving *)

(** X9.  [_computeBezier] only writes [_controlPoint]: it keeps the
    configuration of the connector, and computing again on its result, with
    the same anchors and box, changes nothing and emits the same
    descriptor. *)
Theorem recompute_changes_nothing (this this' : StateMachine)
    (params : ConnectorComputeParams) (w h : Q) (out : list BezierParams) :
  _computeBezier this params w h = Some (this', out) ->
  _computeBezier this' params w h = Some (this', out) /\
  curviness this' = curviness this /\
  margin this' = margin this /\
  proximityLimit this' = proximityLimit this /\
  clockwise this' = clockwise this.
Proof.
  unfold _computeBezier.
  destruct (adjustForMargin this params (boxCorners params w h))
    as [[[sx sy] tx] ty] eqn:Ecorners.
  match goal with
  | |- context [_findControlPoint ?mx ?my ?s ?se ?te ?dx ?dy ?d ?l] =>
      destruct (_findControlPoint mx my s se te dx dy d l) as [cp |] eqn:Ecp
  end; [| discriminate].
  intros E. injection E as E1 E2. subst this' out.
  change (adjustForMargin _ params (boxCorners params w h))
    with (adjustForMargin this params (boxCorners params w h)).
  rewrite Ecorners.
  cbn [curviness margin proximityLimit clockwise].
  rewrite Ecp. repeat split; reflexivity.
Qed.

Lemma recompute_changes_nothing_witness :
  exists this' out,
    _computeBezier scenarioA_connector scenarioA_params 200 150
      = Some (this', out) /\
    _computeBezier this' scenarioA_params 200 150 = Some (this', out).
Proof.
  destruct (_computeBezier scenarioA_connector scenarioA_params 200 150)
    as [[this' out] |] eqn:E; [| discriminate E].
  exists this', out. split; [reflexivity |].
  apply (recompute_changes_nothing scenarioA_connector this'
           scenarioA_params 200 150 out E).
Defined.




(** ** Where the control point can be *)

Lemma _findControlPoint_near_midpoint
    (midx midy segment : Q) (sourceEdge targetEdge : list Q) (c : Q)
    (distance : JS.real) (proximityLimit : Q) (p : Q * Q) :
  _findControlPoint midx midy segment sourceEdge targetEdge c c
    distance proximityLimit = Some p ->
  (midx - Qabs c <= fst p /\ fst p <= midx + Qabs c) /\
  (midy - Qabs c <= snd p /\ snd p <= midy + Qabs c).
Proof.
  pose proof (Qle_Qabs c) as Hpos.
  pose proof (Qle_Qabs (- c)) as Hneg. rewrite Qabs_opp in Hneg.
  unfold _findControlPoint.
  if_cases; intros E; try discriminate E;
    injection E as E; subst p; cbn [fst snd]; repeat split; lra.
Qed.

Lemma double_half (a : Q) : 2 * (a / 2) == a.
Proof. field. Qed.

(** X11.  The control handle of the emitted descriptor stays within the
    bounding box of its two endpoints, enlarged by the absolute value of the
    curviness on every side. *)
Theorem control_point_within_enlarged_box (this : StateMachine)
    (params : ConnectorComputeParams) (w h : Q) :
  exists this' d,
    _computeBezier this params w h = Some (this', [d]) /\
    Qmin (x1 d) (x2 d) - Qabs (curviness this) <= cp1x d /\
    cp1x d <= Qmax (x1 d) (x2 d) + Qabs (curviness this) /\
    Qmin (y1 d) (y2 d) - Qabs (curviness this) <= cp1y d /\
    cp1y d <= Qmax (y1 d) (y2 d) + Qabs (curviness this).
Proof.
  open_computeBezier sx sy tx ty cp Hcp.
  do 2 eexists. split; [reflexivity |].
  cbn [x1 y1 x2 y2 cp1x cp1y].
  apply _findControlPoint_near_midpoint in Hcp.
  destruct Hcp as [[Hx1 Hx2] [Hy1 Hy2]].
  pose proof (double_half (sx + tx)) as Dx.
  pose proof (double_half (sy + ty)) as Dy.
  pose proof (Q.le_min_l tx sx). pose proof (Q.le_min_r tx sx).
  pose proof (Q.le_max_l tx sx). pose proof (Q.le_max_r tx sx).
  pose proof (Q.le_min_l ty sy). pose proof (Q.le_min_r ty sy).
  pose proof (Q.le_max_l ty sy). pose proof (Q.le_max_r ty sy).
  set (mx := (sx + tx) / 2) in *. set (my := (sy + ty) / 2) in *.
  repeat split; lra.
Qed.

(** X13.  With a margin and a box that are not negative, both endpoints of
    the emitted descriptor lie in the box enlarged by the margin on every
    side. *)
Theorem endpoints_within_margin_of_box (this : StateMachine)
    (params : ConnectorComputeParams) (w h : Q) :
  0 <= margin this -> 0 <= w -> 0 <= h ->
  exists this' d,
    _computeBezier this params w h = Some (this', [d]) /\
    (- margin this <= x1 d /\ x1 d <= w + margin this) /\
    (- margin this <= x2 d /\ x2 d <= w + margin this) /\
    (- margin this <= y1 d /\ y1 d <= h + margin this) /\
    (- margin this <= y2 d /\ y2 d <= h + margin this).
Proof.
  intros Hm Hw Hh.
  assert (Hbox :
    let '(sx, sy, tx, ty) := boxCorners params w h in
    (0 <= sx /\ sx <= w) /\ (0 <= sy /\ sy <= h) /\
    (0 <= tx /\ tx <= w) /\ (0 <= ty /\ ty <= h)).
  { unfold boxCorners. if_cases; repeat split; lra. }
  revert Hbox. unfold _computeBezier.
  destruct (boxCorners params w h) as [[[bsx bsy] btx] bty].
  intros [[? ?] [[? ?] [[? ?] [? ?]]]].
  pose proof (adjustForMargin_within this params bsx bsy btx bty Hm) as Hin.
  revert Hin. open_computeBezier sx sy tx ty cp Hcp.
  intros [[? ?] [[? ?] [[? ?] [? ?]]]].
  do 2 eexists. split; [reflexivity |].
  cbn [x1 y1 x2 y2]. repeat split; lra.
Qed.

Lemma endpoints_within_margin_of_box_witness :
  0 <= margin scenarioA_connector /\ 0 <= 50 /\ 0 <= 30 /\
  exists this' d,
    _computeBezier scenarioA_connector scenarioA_params 50 30
      = Some (this', [d]) /\
    (- margin scenarioA_connector <= x1 d /\
     x1 d <= 50 + margin scenarioA_connector) /\
    (- margin scenarioA_connector <= x2 d /\
     x2 d <= 50 + margin scenarioA_connector) /\
    (- margin scenarioA_connector <= y1 d /\
     y1 d <= 30 + margin scenarioA_connector) /\
    (- margin scenarioA_connector <= y2 d /\
     y2 d <= 30 + margin scenarioA_connector).
Proof.
  split; [discriminate |]. split; [discriminate |]. split; [discriminate |].
  apply (endpoints_within_margin_of_box scenarioA_connector
           scenarioA_params 50 30); discriminate.
Defined.

(** ** The orientation option *)

(** X12.  The flag the constructor stores is [true] exactly when the
    orientation option is the string "clockwise", and it is a boolean
    exactly when the option is a string that is not empty. *)
Theorem clockwise_flag_of_orientation (options : Options.t) :
  (clockwise (constructor options) = CwBool true <->
   Options.orientation options = Some "clockwise"%string) /\
  ((exists b, clockwise (constructor options) = CwBool b) <->
   (exists s, Options.orientation options = Some s /\ s <> EmptyString)) /\
  (clockwise (constructor options) = CwUndefined <->
   Options.orientation options = None).
Proof.
  cbn [constructor clockwise].
  destruct (Options.orientation options) as [[| a s] |].
  - repeat split; try discriminate.
    + intros [b Hb]. discriminate Hb.
    + intros [s [E Hs]]. injection E as E. subst s. now elim Hs.
  - repeat split; try discriminate.
    + intros E. injection E as E.
      change (String.eqb (String a s) "clockwise" = true) in E.
      apply String.eqb_eq in E. now rewrite E.
    + intros E.
      f_equal. change (String.eqb (String a s) "clockwise" = true).
      apply String.eqb_eq. congruence.
    + intros _. exists (String a s). split; [reflexivity | discriminate].
    + intros _. eexists. reflexivity.
  - repeat split; try discriminate.
    + intros [b Hb]. discriminate Hb.
    + intros [s [E _]]. discriminate E.
Qed.
